(** * pylint: the implicit-booleaness checker (use-implicit-booleaness-not-len)

    A shallow embedding of
    [pylint/checkers/refactoring/implicit_booleaness_checker.py]:
    the two node handlers [visit_call] and [visit_unaryop] of
    [ImplicitBooleanessChecker], with the helpers [instance_has_bool] and
    [base_classes_of_node], over a model of the astroid syntax tree in
    which every node knows its chain of ancestors. *)

From Stdlib Require Import List String Bool Arith ZArith Lia.
Import ListNotations.
Local Open Scope string_scope.
Local Open Scope list_scope.
Set Warnings "-register-all".

(** ** The astroid syntax tree

    Only the node classes the checker inspects, or that are needed to put
    a call in and out of a condition, are kept. *)

Inductive constant : Type :=
| Int (z : Z)
| Str (s : string).

Inductive expr : Type :=
| Name (name : string)
| Const (value : constant)
| Attribute (value : expr) (attrname : string)
| Call (func : expr) (args : list expr)
| BoolOp (op : string) (values : list expr)
| UnaryOp (op : string) (operand : expr)
| Compare (left : expr) (ops : list (string * expr))
| IfExp (test body orelse : expr)
| ListComp (elt : expr) (generators : list comprehension)
| SetComp (elt : expr) (generators : list comprehension)
| DictComp (key value : expr) (generators : list comprehension)
| GeneratorExp (elt : expr) (generators : list comprehension)
with comprehension : Type :=
| Comprehension (target iter : expr) (ifs : list expr).

Inductive stmt : Type :=
| If (test : expr) (body orelse : list stmt)
| While (test : expr) (body orelse : list stmt)
| Assert (test : expr) (fail : option expr)
| Assign (targets : list expr) (value : expr)
| Expr (value : expr)
| Pass.

(** Any node of a tree: astroid's [NodeNG]. *)
Inductive syntax : Type :=
| Module (body : list stmt)
| Stmt (s : stmt)
| Ex (e : expr)
| Comp (c : comprehension).

(** The node classes of [astroid.nodes], as far as [isinstance] is asked
    about them. *)
Module nodes.

Inductive class : Type :=
| Module | If | While | Assert | Assign | Expr | Pass
| Name | Const | Attribute | Call | BoolOp | UnaryOp | Compare | IfExp
| ListComp | SetComp | DictComp | GeneratorExp | Comprehension.

Definition eqb (a b : class) : bool :=
  match a, b with
  | Module, Module | If, If | While, While | Assert, Assert
  | Assign, Assign | Expr, Expr | Pass, Pass | Name, Name
  | Const, Const | Attribute, Attribute | Call, Call | BoolOp, BoolOp
  | UnaryOp, UnaryOp | Compare, Compare | IfExp, IfExp
  | ListComp, ListComp | SetComp, SetComp | DictComp, DictComp
  | GeneratorExp, GeneratorExp | Comprehension, Comprehension => true
  | _, _ => false
  end.

End nodes.

Definition class_of (s : syntax) : nodes.class :=
  match s with
  | Module _ => nodes.Module
  | Stmt (If _ _ _) => nodes.If
  | Stmt (While _ _ _) => nodes.While
  | Stmt (Assert _ _) => nodes.Assert
  | Stmt (Assign _ _) => nodes.Assign
  | Stmt (Expr _) => nodes.Expr
  | Stmt Pass => nodes.Pass
  | Ex (Name _) => nodes.Name
  | Ex (Const _) => nodes.Const
  | Ex (Attribute _ _) => nodes.Attribute
  | Ex (Call _ _) => nodes.Call
  | Ex (BoolOp _ _) => nodes.BoolOp
  | Ex (UnaryOp _ _) => nodes.UnaryOp
  | Ex (Compare _ _) => nodes.Compare
  | Ex (IfExp _ _ _) => nodes.IfExp
  | Ex (ListComp _ _) => nodes.ListComp
  | Ex (SetComp _ _) => nodes.SetComp
  | Ex (DictComp _ _ _) => nodes.DictComp
  | Ex (GeneratorExp _ _) => nodes.GeneratorExp
  | Comp _ => nodes.Comprehension
  end.

(** ** Nodes with their parents

    The handlers receive a node of a tree and read its [parent] links.  A
    [node] is therefore a piece of syntax together with the path that
    leads from it up to the root: one [frame] per ancestor, nearest first,
    each naming the ancestor and the field of the ancestor in which the
    child sits.  Two nodes are the same object when syntax and path
    agree. *)

Inductive field : Type :=
| f_body (i : nat) | f_orelse (i : nat) | f_test | f_fail
| f_targets (i : nat) | f_value
| f_func | f_args (i : nat) | f_values (i : nat) | f_operand
| f_left | f_ops (i : nat) | f_body_expr | f_orelse_expr
| f_elt | f_key | f_generators (i : nat)
| f_target | f_iter | f_ifs (i : nat).

Record frame : Type := Frame { holder : syntax; slot : field }.

Record node : Type := Node { here : syntax; path : list frame }.

(** [node.parent]; [None] is Python's [None], the parent of the root. *)
Definition parent (n : node) : option node :=
  match path n with
  | [] => None
  | f :: up => Some (Node (holder f) up)
  end.

(** The child of [n] that sits in field [fld]. *)
Definition child (n : node) (fld : field) (s : syntax) : node :=
  Node s (Frame (here n) fld :: path n).

Definition isinstance (n : node) (classes : list nodes.class) : bool :=
  existsb (nodes.eqb (class_of (here n))) classes.

Fixpoint indexed {A : Type} (i : nat) (l : list A) : list (nat * A) :=
  match l with
  | [] => []
  | x :: l' => (i, x) :: indexed (S i) l'
  end.

(** ** Exceptions, and handlers as traces of collaborator calls

    A handler talks to two collaborators: it asks astroid to infer a node
    and it hands messages to the linter.  Running a handler gives the
    calls it made, in order, and either a normal return or the exception
    that escaped. *)

Inductive exn : Type :=
| IndexError
| AttributeError.

Inductive result (A : Type) : Type :=
| Ok (a : A)
| Raise (e : exn).
Arguments Ok {A} a.
Arguments Raise {A} e.

Inductive event : Type :=
| Infer (n : node)
| AddMessage (msgid : string) (n : node).

Definition M (A : Type) : Type := (list event * result A)%type.

Definition ret {A : Type} (a : A) : M A := ([], Ok a).

Definition raise {A : Type} (e : exn) : M A := ([], Raise e).

Definition bind {A B : Type} (m : M A) (k : A -> M B) : M B :=
  match m with
  | (t, Ok a) => let (t', r) := k a in (t ++ t', r)
  | (t, Raise e) => (t, Raise e)
  end.

Notation "x <- m ;; k" := (bind m (fun x => k))
  (at level 61, m at next level, right associativity).

Definition trace {A : Type} (m : M A) : list event := fst m.

Definition outcome {A : Type} (m : M A) : result A := snd m.

(** The messages a run handed to the linter, as (symbol, node) pairs. *)
Fixpoint messages_of (t : list event) : list (string * node) :=
  match t with
  | [] => []
  | AddMessage msgid n :: t' => (msgid, n) :: messages_of t'
  | Infer _ :: t' => messages_of t'
  end.

(** The nodes a run asked astroid to infer. *)
Fixpoint inferred_of (t : list event) : list node :=
  match t with
  | [] => []
  | Infer n :: t' => n :: inferred_of t'
  | AddMessage _ _ :: t' => inferred_of t'
  end.

Definition messages {A : Type} (m : M A) : list (string * node) :=
  messages_of (trace m).

Definition inferred {A : Type} (m : M A) : list node :=
  inferred_of (trace m).

(** [self.add_message(msgid, node=node)] *)
Definition add_message (msgid : string) (n : node) : M unit :=
  ([AddMessage msgid n], Ok tt).

(** [l[i]] on a Python list. *)
Definition getitem {A : Type} (l : list A) (i : nat) : M A :=
  match nth_error l i with
  | Some x => ret x
  | None => raise IndexError
  end.

(** [node.args]: the argument nodes of a [Call]; any other node has no
    such attribute. *)
Definition args_of (n : node) : M (list node) :=
  match here n with
  | Ex (Call _ a) => ret (map (fun ix => child n (f_args (fst ix)) (Ex (snd ix))) (indexed 0 a))
  | _ => raise AttributeError
  end.

(** ** What astroid answers

    The value an expression is inferred to.  The checker reads its [name],
    calls [ancestors()] and calls [getattr(attr)] ([None]: the lookup
    raises [AttributeInferenceError]).

    Calling [ancestors()] has three outcomes.  A class or an instance
    returns its ancestor classes.  A value without class shape, such as
    [Uninferable], raises [TypeError].  A function, a bound method or a
    module has no attribute [ancestors] at all, and the access raises
    [AttributeError]. *)

Module astroid.

Inductive ancestors_call (A : Type) : Type :=
| Returns (classes : A)
| RaisesTypeError
| NoSuchAttribute.
Arguments Returns {A} classes.
Arguments RaisesTypeError {A}.
Arguments NoSuchAttribute {A}.

Inductive Inferred : Type := mkInferred
  { name : string;
    ancestors : ancestors_call (list Inferred);
    getattr : string -> option unit }.

End astroid.

(** Membership in a list of names: Python's [t in names]. *)
Definition inb (t : string) (names : list string) : bool :=
  existsb (String.eqb t) names.

(** ** The checker

    The class [ImplicitBooleanessChecker].  The decorator
    [utils.check_messages] on the two handlers only tells the walker which
    messages a handler can emit; it does not change what the handler
    does and is left out. *)

Module ImplicitBooleanessChecker.

(** configuration section name *)
Definition name : string := "refactoring".

(** One entry of [msgs]: the tuple registered under a message id. *)
Record message_definition : Type := MessageDefinition
  { msg_text : string;
    msg_symbol : string;
    msg_description : string;
    old_names : list (string * string) }.

Definition msgs : list (string * message_definition) :=
  [ ("C1802",
     MessageDefinition
       "Do not use `len(SEQUENCE)` without comparison to determine if a sequence is empty"
       "use-implicit-booleaness-not-len"
       ("Used when Pylint detects that len(sequence) is being used "
        ++ "without explicit comparison inside a condition to determine if a sequence is empty. "
        ++ "Instead of coercing the length to a boolean, either "
        ++ "rely on the fact that empty sequences are false or "
        ++ "compare the length against a scalar.")
       [("C1801", "len-as-condition")]) ].

Definition priority : Z := (-2)%Z.

Definition options : list (string * string) := [].

(** [instance_has_bool]: does looking up [__bool__] succeed? *)
Definition instance_has_bool (class_def : astroid.Inferred) : bool :=
  match astroid.getattr class_def "__bool__" with
  | Some _ => true
  | None => false
  end.

(** [base_classes_of_node]: the value's own name, then the names of its
    ancestors; the own name alone when [ancestors()] raises
    [TypeError].  [TypeError] is the only exception caught: the
    [AttributeError] of a value without [ancestors] escapes. *)
Definition base_classes_of_node (instance : astroid.Inferred) : M (list string) :=
  match astroid.ancestors instance with
  | astroid.Returns xs => ret ([astroid.name instance] ++ map astroid.name xs)
  | astroid.RaisesTypeError => ret [astroid.name instance]
  | astroid.NoSuchAttribute => raise AttributeError
  end.

Definition generator_or_comprehension : list nodes.class :=
  [nodes.ListComp; nodes.SetComp; nodes.DictComp; nodes.GeneratorExp].

(** [parent = node.parent]
    [while isinstance(parent, nodes.BoolOp): parent = parent.parent]
    run on the path of the node: the recursion is on the ancestors that
    are left. *)
Fixpoint out_of_boolops (up : list frame) : option node :=
  match up with
  | [] => None
  | f :: up' =>
      if isinstance (Node (holder f) up') [nodes.BoolOp]
      then out_of_boolops up'
      else Some (Node (holder f) up')
  end.

Section Handlers.

(** [utils.is_call_of_name] and [utils.is_test_condition], of
    [pylint.checkers.utils]. *)
Variable is_call_of_name : node -> string -> bool.
Variable is_test_condition : node -> option node -> bool.

(** [next(n.infer())]: the first inferred value, [None] when astroid
    raises [InferenceError]. *)
Variable infer : node -> option astroid.Inferred.

Definition next_infer (n : node) : M (option astroid.Inferred) :=
  ([Infer n], Ok (infer n)).

Definition visit_call (node : node) : M unit :=
  if negb (is_call_of_name node "len") then ret tt
  else
    let parent := out_of_boolops (path node) in
    if negb (is_test_condition node parent) then ret tt
    else
      args <- args_of node ;;
      len_arg <- getitem args 0 ;;
      if isinstance len_arg generator_or_comprehension then
        add_message "use-implicit-booleaness-not-len" node
      else
        inferred <- next_infer len_arg ;;
        match inferred with
        | None => ret tt
        | Some instance =>
            mother_classes <- base_classes_of_node instance ;;
            let affected_by_pep8 :=
              existsb (fun t => inb t mother_classes)
                      ["str"; "tuple"; "list"; "set"] in
            if inb "range" mother_classes
               || (affected_by_pep8 && negb (instance_has_bool instance))
            then add_message "use-implicit-booleaness-not-len" node
            else ret tt
        end.

(** [node.operand] of a [UnaryOp]. *)
Definition operand_of (n : node) (e : expr) : node :=
  child n f_operand (Ex e).

Definition visit_unaryop (node : node) : M unit :=
  match here node with
  | Ex (UnaryOp op operand) =>
      if String.eqb op "not"
         && is_call_of_name (operand_of node operand) "len"
      then add_message "use-implicit-booleaness-not-len" node
      else ret tt
  | _ => ret tt
  end.

End Handlers.

End ImplicitBooleanessChecker.

Import ImplicitBooleanessChecker.

(** ** Vocabulary for the statements *)

(** The one symbol the checker emits. *)
Definition symbol : string := "use-implicit-booleaness-not-len".

(** A call node, and the node of its first argument. *)
Definition call_node (f : expr) (a : list expr) (up : list frame) : node :=
  Node (Ex (Call f a)) up.

Definition first_arg (n : node) (x : expr) : node :=
  child n (f_args 0) (Ex x).

(** The frames of a chain of nested boolean operators. *)
Definition boolop_frames (bs : list frame) : Prop :=
  Forall (fun fr => class_of (holder fr) = nodes.BoolOp) bs.

(** A class descriptor, the list [base_classes_of_node] returns,
    contains one of the base kinds PEP8 speaks about. *)
Definition affected_by_pep8 (mother_classes : list string) : Prop :=
  exists t, In t ["str"; "tuple"; "list"; "set"] /\ In t mother_classes.

(** The condition under which the call handler reports an inferred
    value with the class descriptor [mother_classes]: lines 88 to 93 of
    the source, as one boolean. *)
Definition fires (mother_classes : list string) (instance : astroid.Inferred)
  : bool :=
  inb "range" mother_classes
  || (existsb (fun t => inb t mother_classes) ["str"; "tuple"; "list"; "set"]
      && negb (instance_has_bool instance)).

(** ** The helpers of [pylint.checkers.utils] and the tree walker *)

Module utils.

(** Modelled from the spec: [utils.is_call_of_name] is not part of the
    sources at hand.  A length computation is a call invoking the fixed
    operation; the call node carries a callee name.  So: the node is a
    [Call] whose callee is the plain name asked for. *)
Definition is_call_of_name (n : node) (name : string) : bool :=
  match here n with
  | Ex (Call (Name f) _) => String.eqb f name
  | _ => false
  end.

(** The field of [p] through which the descendant [n] hangs below its
    ancestor [p]. *)
Definition slot_below (p n : node) : option field :=
  option_map slot (nth_error (rev (path n)) (List.length (path p))).

(** Modelled from the spec: [utils.is_test_condition] is not part of
    the sources at hand.  Truthiness position holds iff the test site,
    the first ancestor that is no [BoolOp], is an [If], [While],
    [IfExp] or [Assert] and the call, after flattening, occupies the
    test-child slot of it. *)
Definition is_test_condition (n : node) (parent : option node) : bool :=
  match parent with
  | None => false
  | Some p =>
      isinstance p [nodes.If; nodes.While; nodes.IfExp; nodes.Assert]
      && match slot_below p n with
         | Some f_test => true
         | _ => false
         end
  end.

End utils.

Module walker.

Section Walk.

Variable infer : node -> option astroid.Inferred.

(** Modelled from the spec: the tree visitor belongs to the host.  It
    routes every call node to the call handler and every unary
    operator node to the negation handler, parents before
    children. *)
Definition dispatch (n : node) : M unit :=
  match class_of (here n) with
  | nodes.Call =>
      visit_call utils.is_call_of_name utils.is_test_condition infer n
  | nodes.UnaryOp => visit_unaryop utils.is_call_of_name n
  | _ => ret tt
  end.

Fixpoint walk_expr (up : list frame) (e : expr) {struct e} : M unit :=
  let n := Node (Ex e) up in
  let down fld := Frame (Ex e) fld :: up in
  let walk_generators :=
    fix go (i : nat) (l : list comprehension) : M unit :=
      match l with
      | [] => ret tt
      | c :: l' =>
          _ <- walk_comp (down (f_generators i)) c ;; go (S i) l'
      end in
  _ <- dispatch n ;;
  match e with
  | Name _ | Const _ => ret tt
  | Attribute v _ => walk_expr (down f_value) v
  | Call f a =>
      _ <- walk_expr (down f_func) f ;;
      (fix go (i : nat) (l : list expr) : M unit :=
         match l with
         | [] => ret tt
         | x :: l' => _ <- walk_expr (down (f_args i)) x ;; go (S i) l'
         end) 0 a
  | BoolOp _ vs =>
      (fix go (i : nat) (l : list expr) : M unit :=
         match l with
         | [] => ret tt
         | x :: l' => _ <- walk_expr (down (f_values i)) x ;; go (S i) l'
         end) 0 vs
  | UnaryOp _ x => walk_expr (down f_operand) x
  | Compare l ops =>
      _ <- walk_expr (down f_left) l ;;
      (fix go (i : nat) (l : list (string * expr)) : M unit :=
         match l with
         | [] => ret tt
         | (_, x) :: l' => _ <- walk_expr (down (f_ops i)) x ;; go (S i) l'
         end) 0 ops
  | IfExp t b o =>
      _ <- walk_expr (down f_test) t ;;
      _ <- walk_expr (down f_body_expr) b ;;
      walk_expr (down f_orelse_expr) o
  | ListComp x gs | SetComp x gs | GeneratorExp x gs =>
      _ <- walk_expr (down f_elt) x ;; walk_generators 0 gs
  | DictComp k v gs =>
      _ <- walk_expr (down f_key) k ;;
      _ <- walk_expr (down f_value) v ;;
      walk_generators 0 gs
  end
with walk_comp (up : list frame) (c : comprehension) {struct c} : M unit :=
  let down fld := Frame (Comp c) fld :: up in
  match c with
  | Comprehension t it conds =>
      _ <- walk_expr (down f_target) t ;;
      _ <- walk_expr (down f_iter) it ;;
      (fix go (i : nat) (l : list expr) : M unit :=
         match l with
         | [] => ret tt
         | x :: l' => _ <- walk_expr (down (f_ifs i)) x ;; go (S i) l'
         end) 0 conds
  end.

Definition walk_exprs (up : list frame) (h : syntax) (fld : nat -> field)
  : nat -> list expr -> M unit :=
  fix go (i : nat) (l : list expr) : M unit :=
    match l with
    | [] => ret tt
    | x :: l' => _ <- walk_expr (Frame h (fld i) :: up) x ;; go (S i) l'
    end.

Fixpoint walk_stmt (up : list frame) (s : stmt) {struct s} : M unit :=
  let down fld := Frame (Stmt s) fld :: up in
  let walk_block (fld : nat -> field) :=
    fix go (i : nat) (l : list stmt) : M unit :=
      match l with
      | [] => ret tt
      | x :: l' => _ <- walk_stmt (down (fld i)) x ;; go (S i) l'
      end in
  match s with
  | If t b o | While t b o =>
      _ <- walk_expr (down f_test) t ;;
      _ <- walk_block f_body 0 b ;;
      walk_block f_orelse 0 o
  | Assert t None => walk_expr (down f_test) t
  | Assert t (Some m) =>
      _ <- walk_expr (down f_test) t ;; walk_expr (down f_fail) m
  | Assign ts v =>
      _ <- walk_exprs up (Stmt s) f_targets 0 ts ;;
      walk_expr (down f_value) v
  | Expr v => walk_expr (down f_value) v
  | Pass => ret tt
  end.

(** Walking a whole module, from the root. *)
Definition walk (body : list stmt) : M unit :=
  (fix go (i : nat) (l : list stmt) : M unit :=
     match l with
     | [] => ret tt
     | x :: l' =>
         _ <- walk_stmt [Frame (Module body) (f_body i)] x ;; go (S i) l'
     end) 0 body.

End Walk.

End walker.

(** ** Concrete programs and a concrete inference oracle *)

Module scenarios.

Definition no_attr : string -> option unit := fun _ => None.

Definition only_bool : string -> option unit :=
  fun a => if String.eqb a "__bool__" then Some tt else None.

Definition object_cls : astroid.Inferred :=
  astroid.mkInferred "object" (astroid.Returns []) no_attr.

(** a plain list *)
Definition list_value : astroid.Inferred :=
  astroid.mkInferred "list" (astroid.Returns [object_cls]) no_attr.

(** [class Flag(list)] that defines [__bool__] *)
Definition list_with_bool : astroid.Inferred :=
  astroid.mkInferred "Flag" (astroid.Returns [list_value; object_cls]) only_bool.

(** [range] defines [__bool__] itself *)
Definition range_value : astroid.Inferred :=
  astroid.mkInferred "range" (astroid.Returns [object_cls]) only_bool.

Definition int_value : astroid.Inferred :=
  astroid.mkInferred "int" (astroid.Returns [object_cls]) only_bool.

(** a value without class shape: [ancestors()] raises [TypeError] *)
Definition shapeless : astroid.Inferred :=
  astroid.mkInferred "Uninferable" astroid.RaisesTypeError only_bool.

(** The names of the example programs, and what they are inferred to;
    [undefined] is a name astroid cannot resolve. *)
Definition infer (n : node) : option astroid.Inferred :=
  match here n with
  | Ex (Name "items") => Some list_value
  | Ex (Name "obj") => Some list_with_bool
  | Ex (Name "r") => Some range_value
  | Ex (Name "count") => Some int_value
  | Ex (Name "odd") => Some shapeless
  | _ => None
  end.

Definition len_of (x : expr) : expr := Call (Name "len") [x].

(** [if len(items): pass] *)
Definition if_len_items : list stmt :=
  [If (len_of (Name "items")) [Pass] []].

(** [if a or len(items): pass] *)
Definition if_a_or_len_items : list stmt :=
  [If (BoolOp "or" [Name "a"; len_of (Name "items")]) [Pass] []].

(** [if a or (b and len(items)): pass] *)
Definition if_a_or_b_and_len_items : list stmt :=
  [If (BoolOp "or" [Name "a";
                    BoolOp "and" [Name "b"; len_of (Name "items")]])
      [Pass] []].

(** [if not len(items): pass] *)
Definition if_not_len_items : list stmt :=
  [If (UnaryOp "not" (len_of (Name "items"))) [Pass] []].

(** [x = len(items)] *)
Definition x_is_len_items : list stmt :=
  [Assign [Name "x"] (len_of (Name "items"))].

(** [x = not len(items)] *)
Definition x_is_not_len_items : list stmt :=
  [Assign [Name "x"] (UnaryOp "not" (len_of (Name "items")))].

(** [f(len(items))] *)
Definition f_of_len_items : list stmt :=
  [Expr (Call (Name "f") [len_of (Name "items")])].

(** [[y for y in range(0, 10)]] *)
Definition the_listcomp : expr :=
  ListComp (Name "y")
    [Comprehension (Name "y")
       (Call (Name "range") [Const (Int 0); Const (Int 10)]) []].

(** [if len([y for y in range(0, 10)]): pass] *)
Definition if_len_listcomp : list stmt :=
  [If (len_of the_listcomp) [Pass] []].

(** [if len(obj): pass] *)
Definition if_len_obj : list stmt :=
  [If (len_of (Name "obj")) [Pass] []].

(** [if len(r): pass] *)
Definition if_len_r : list stmt :=
  [If (len_of (Name "r")) [Pass] []].

(** [if len(undefined): pass] *)
Definition if_len_undefined : list stmt :=
  [If (len_of (Name "undefined")) [Pass] []].

(** [if len(): pass] *)
Definition if_len_nothing : list stmt :=
  [If (Call (Name "len") []) [Pass] []].

(** The node of the test of the only statement of a one-statement
    module. *)
Definition test_node (body : list stmt) (t : expr) : node :=
  match body with
  | s :: _ => Node (Ex t) [Frame (Stmt s) f_test; Frame (Module body) (f_body 0)]
  | [] => Node (Ex t) []
  end.

(** The [not] of [x = not len(items)], which is in no condition. *)
Definition assigned_not : node :=
  Node (Ex (UnaryOp "not" (len_of (Name "items"))))
       [Frame (Stmt (Assign [Name "x"] (UnaryOp "not" (len_of (Name "items")))))
              f_value;
        Frame (Module x_is_not_len_items) (f_body 0)].

(** The call of [x = len(items)]. *)
Definition assigned_len : node :=
  Node (Ex (len_of (Name "items")))
       [Frame (Stmt (Assign [Name "x"] (len_of (Name "items")))) f_value;
        Frame (Module x_is_len_items) (f_body 0)].

(** The call of [if a or (b and len(items)): pass], below its two
    boolean operators. *)
Definition b_and_len : expr := BoolOp "and" [Name "b"; len_of (Name "items")].

Definition a_or_b_and_len : expr := BoolOp "or" [Name "a"; b_and_len].

Definition nested_frames : list frame :=
  [Frame (Ex b_and_len) (f_values 1); Frame (Ex a_or_b_and_len) (f_values 1)].

Definition nested_len : node :=
  Node (Ex (len_of (Name "items")))
       (nested_frames
        ++ [Frame (Stmt (If a_or_b_and_len [Pass] [])) f_test;
            Frame (Module if_a_or_b_and_len_items) (f_body 0)]).

(** What a full walk of a program reports: the messages, and how often
    astroid was asked. *)
Definition report (body : list stmt) : list (string * node) * nat :=
  (messages (walker.walk infer body),
   List.length (inferred (walker.walk infer body))).

End scenarios.

(** ** Further values and programs *)

(** The same inferred value, with the lookup of [__bool__] failing. *)
Definition without_bool (v : astroid.Inferred) : astroid.Inferred :=
  astroid.mkInferred (astroid.name v) (astroid.ancestors v)
    (fun a => if String.eqb a "__bool__" then None else astroid.getattr v a).

Module more_scenarios.

(** A value called [list] without class shape: [ancestors()] raises
    [TypeError], and it has no [__bool__]. *)
Definition shapeless_list : astroid.Inferred :=
  astroid.mkInferred "list" astroid.RaisesTypeError scenarios.no_attr.

(** An oracle that takes [items] for that value. *)
Definition infer_shapeless (n : node) : option astroid.Inferred :=
  match here n with
  | Ex (Name "items") => Some shapeless_list
  | _ => None
  end.

(** [if len(count): pass], where [count] is an [int] *)
Definition if_len_count : list stmt :=
  [If (scenarios.len_of (Name "count")) [Pass] []].

(** The builtin function [len]: a function has a name and no attribute
    [ancestors]. *)
Definition len_function : astroid.Inferred :=
  astroid.mkInferred "len" astroid.NoSuchAttribute scenarios.no_attr.

(** The oracle of the examples, which also knows the name [len]. *)
Definition infer_with_builtins (n : node) : option astroid.Inferred :=
  match here n with
  | Ex (Name "len") => Some len_function
  | _ => scenarios.infer n
  end.

(** [if len(len): pass] *)
Definition if_len_len : list stmt :=
  [If (scenarios.len_of (Name "len")) [Pass] []].

End more_scenarios.

(** ** Properties of the handlers *)

Lemma inb_In (t : string) (names : list string) :
  inb t names = true <-> In t names.
Proof.
  unfold inb. rewrite existsb_exists. split.
  - intros [y [Hy Heq]]. apply String.eqb_eq in Heq. now subst.
  - intros H. exists t. split; [assumption | apply String.eqb_refl].
Qed.

Lemma inb_not_In (t : string) (names : list string) :
  inb t names = false <-> ~ In t names.
Proof.
  rewrite <- inb_In. destruct (inb t names); split; congruence.
Qed.

Lemma class_eqb_eq (a b : nodes.class) : nodes.eqb a b = true <-> a = b.
Proof. destruct a, b; simpl; split; congruence. Qed.

Lemma isinstance_In (n : node) (classes : list nodes.class) :
  isinstance n classes = true <-> In (class_of (here n)) classes.
Proof.
  unfold isinstance. rewrite existsb_exists. split.
  - intros [c [Hc Heq]]. apply class_eqb_eq in Heq. now subst.
  - intros H. exists (class_of (here n)). split; [assumption |].
    now apply class_eqb_eq.
Qed.

(** The loop that leaves the boolean operators is the loop of the source:
    start at the parent, and while it is a [BoolOp] step to its parent. *)
Lemma out_of_boolops_unfold (n : node) :
  out_of_boolops (path n) =
  match parent n with
  | None => None
  | Some p =>
      if isinstance p [nodes.BoolOp] then out_of_boolops (path p) else Some p
  end.
Proof. destruct n as [s [| f up]]; reflexivity. Qed.

Lemma out_of_boolops_not_boolop (up : list frame) (p : node) :
  out_of_boolops up = Some p -> isinstance p [nodes.BoolOp] = false.
Proof.
  induction up as [| f up IH]; cbn [out_of_boolops]; [discriminate |].
  destruct (isinstance (Node (holder f) up) [nodes.BoolOp]) eqn:E.
  - exact IH.
  - intros H. injection H as <-. exact E.
Qed.

(** [base_classes_of_node] either returns a class descriptor or lets
    the [AttributeError] of a missing [ancestors] escape; it makes no
    call to a collaborator. *)
Lemma base_classes_of_node_cases (v : astroid.Inferred) :
  (exists mother_classes, base_classes_of_node v = ret mother_classes)
  \/ (base_classes_of_node v = raise AttributeError
      /\ astroid.ancestors v = astroid.NoSuchAttribute).
Proof.
  unfold base_classes_of_node.
  destruct (astroid.ancestors v) as [xs | |].
  - left. now eexists.
  - left. now eexists.
  - right. now split.
Qed.

Section HandlerProperties.

Variable is_call_of_name : node -> string -> bool.
Variable is_test_condition : node -> option node -> bool.
Variable infer : node -> option astroid.Inferred.

Local Abbreviation visit_call :=
  (visit_call is_call_of_name is_test_condition infer).
Local Abbreviation visit_unaryop := (visit_unaryop is_call_of_name).

(** The run of the call handler, case by case. *)
Lemma visit_call_skips_other_calls (n : node) :
  is_call_of_name n "len" = false -> visit_call n = ([], Ok tt).
Proof. intros H. unfold ImplicitBooleanessChecker.visit_call. now rewrite H. Qed.

Lemma visit_call_outside_test (n : node) :
  is_test_condition n (out_of_boolops (path n)) = false ->
  visit_call n = ([], Ok tt).
Proof.
  intros H. unfold ImplicitBooleanessChecker.visit_call. rewrite H.
  now destruct (is_call_of_name n "len").
Qed.

Lemma visit_call_no_argument (f : expr) (up : list frame) :
  let n := call_node f [] up in
  is_call_of_name n "len" = true ->
  is_test_condition n (out_of_boolops up) = true ->
  visit_call n = ([], Raise IndexError).
Proof.
  intros n H1 H2. unfold ImplicitBooleanessChecker.visit_call.
  rewrite H1. simpl path. rewrite H2. reflexivity.
Qed.

Lemma visit_call_comprehension (f x : expr) (rest : list expr) (up : list frame) :
  let n := call_node f (x :: rest) up in
  is_call_of_name n "len" = true ->
  is_test_condition n (out_of_boolops up) = true ->
  isinstance (first_arg n x) generator_or_comprehension = true ->
  visit_call n = ([AddMessage symbol n], Ok tt).
Proof.
  intros n H1 H2 H3. unfold ImplicitBooleanessChecker.visit_call.
  rewrite H1. simpl path. rewrite H2. simpl.
  unfold first_arg, child in H3. simpl in H3. rewrite H3. reflexivity.
Qed.

Lemma visit_call_inference (f x : expr) (rest : list expr) (up : list frame) :
  let n := call_node f (x :: rest) up in
  is_call_of_name n "len" = true ->
  is_test_condition n (out_of_boolops up) = true ->
  isinstance (first_arg n x) generator_or_comprehension = false ->
  visit_call n =
  match infer (first_arg n x) with
  | None => ([Infer (first_arg n x)], Ok tt)
  | Some instance =>
      match outcome (base_classes_of_node instance) with
      | Ok mother_classes =>
          if fires mother_classes instance
          then ([Infer (first_arg n x); AddMessage symbol n], Ok tt)
          else ([Infer (first_arg n x)], Ok tt)
      | Raise e => ([Infer (first_arg n x)], Raise e)
      end
  end.
Proof.
  intros n H1 H2 H3. unfold ImplicitBooleanessChecker.visit_call.
  rewrite H1. simpl path. rewrite H2. simpl negb. cbv iota.
  unfold first_arg, child in *. simpl here in *. simpl path in *.
  unfold args_of. simpl here. cbv iota. unfold indexed; fold (@indexed expr).
  simpl map. unfold child. simpl here. simpl path.
  unfold bind at 1. unfold ret at 1. unfold getitem. simpl nth_error.
  unfold bind at 1. unfold ret at 1. simpl app.
  rewrite H3. unfold next_infer, bind.
  destruct (infer _) as [instance |]; [| reflexivity].
  unfold base_classes_of_node, fires, outcome, ret, raise.
  destruct (astroid.ancestors instance) as [xs | |]; cbn [snd];
    try reflexivity; destruct (_ || _); reflexivity.
Qed.

Lemma affected_by_pep8_existsb (mother_classes : list string) :
  existsb (fun t => inb t mother_classes)
          ["str"; "tuple"; "list"; "set"] = true
  <-> affected_by_pep8 mother_classes.
Proof.
  unfold affected_by_pep8. rewrite existsb_exists.
  split; intros [t [Ht Hin]]; exists t; split; try assumption;
    now apply inb_In.
Qed.

(** Every run of the call handler has one of five shapes. *)
Lemma visit_call_shapes (n : node) :
  exists q,
    visit_call n = ([], Ok tt)
    \/ visit_call n = ([], Raise IndexError)
    \/ visit_call n = ([], Raise AttributeError)
    \/ visit_call n = ([AddMessage symbol n], Ok tt)
    \/ (visit_call n = ([Infer q], Ok tt)
        /\ (infer q = None
            \/ exists v mother_classes,
                infer q = Some v
                /\ base_classes_of_node v = ret mother_classes
                /\ fires mother_classes v = false))
    \/ (visit_call n = ([Infer q; AddMessage symbol n], Ok tt)
        /\ exists v mother_classes,
            infer q = Some v
            /\ base_classes_of_node v = ret mother_classes
            /\ fires mother_classes v = true)
    \/ (visit_call n = ([Infer q], Raise AttributeError)
        /\ exists v,
            infer q = Some v
            /\ astroid.ancestors v = astroid.NoSuchAttribute).
Proof.
  destruct (is_call_of_name n "len") eqn:H1.
  2:{ exists n. left. now apply visit_call_skips_other_calls. }
  destruct (is_test_condition n (out_of_boolops (path n))) eqn:H2.
  2:{ exists n. left. now apply visit_call_outside_test. }
  destruct n as [s up].
  assert (Hother : (forall f a, s <> Ex (Call f a)) ->
                   visit_call (Node s up) = ([], Raise AttributeError)).
  { intros Hs. unfold ImplicitBooleanessChecker.visit_call.
    rewrite H1, H2. simpl negb. cbv iota. unfold args_of. simpl here.
    destruct s as [b | st | e | c]; try reflexivity.
    destruct e; try reflexivity. now elim (Hs e args). }
  destruct s as [b | st | e | c];
    try (exists (Node (Module []) []); right; right; left;
         apply Hother; discriminate).
  destruct e as [ | | | f a | | | | | | | | ];
    try (exists (Node (Module []) []); right; right; left;
         apply Hother; discriminate).
  clear Hother. destruct a as [| x rest].
  - exists (Node (Module []) []). right. left.
    now apply visit_call_no_argument.
  - exists (first_arg (call_node f (x :: rest) up) x).
    destruct (isinstance (first_arg (call_node f (x :: rest) up) x)
                generator_or_comprehension) eqn:H3.
    + do 3 right. left. now apply visit_call_comprehension.
    + do 4 right.
      pose proof (visit_call_inference f x rest up H1 H2 H3) as E.
      cbv zeta in E. unfold call_node in *. rewrite E.
      destruct (infer _) as [v |] eqn:Hv.
      * destruct (base_classes_of_node_cases v)
          as [[mc Hmc] | [Hesc Hanc]].
        -- rewrite Hmc. cbn [outcome ret snd].
           destruct (fires mc v) eqn:Hf.
           ++ right. left. split; [reflexivity |]. now exists v, mc.
           ++ left. split; [reflexivity |]. right. now exists v, mc.
        -- rewrite Hesc. cbn [outcome raise snd]. right. right.
           split; [reflexivity |]. now exists v.
      * left. split; [reflexivity |]. now left.
Qed.

(** The handler asks astroid about the first argument, and about
    nothing else, exactly when the call is a [len] call in truthiness
    position whose argument is no comprehension. *)
Lemma visit_call_infers_argument (f x : expr) (rest : list expr)
  (up : list frame) :
  let n := call_node f (x :: rest) up in
  is_call_of_name n "len" = true ->
  is_test_condition n (out_of_boolops up) = true ->
  isinstance (first_arg n x) generator_or_comprehension = false ->
  inferred (visit_call n) = [first_arg n x]
  /\ messages (visit_call n)
     = match infer (first_arg n x) with
       | Some instance =>
           match outcome (base_classes_of_node instance) with
           | Ok mother_classes =>
               if fires mother_classes instance then [(symbol, n)] else []
           | Raise _ => []
           end
       | None => []
       end.
Proof.
  intros n H1 H2 H3. subst n.
  rewrite (visit_call_inference f x rest up H1 H2 H3).
  destruct (infer _) as [v |]; [| now split].
  destruct (outcome (base_classes_of_node v)) as [mc | e]; [| now split].
  destruct (fires mc v); now split.
Qed.

Lemma visit_call_inferred_argument (f x : expr) (rest : list expr)
  (up : list frame) :
  let n := call_node f (x :: rest) up in
  In (first_arg n x) (inferred (visit_call n)) ->
  isinstance (first_arg n x) generator_or_comprehension = false
  /\ is_call_of_name n "len" = true
  /\ is_test_condition n (out_of_boolops up) = true.
Proof.
  intros n Hin.
  destruct (is_call_of_name n "len") eqn:H1.
  2:{ rewrite (visit_call_skips_other_calls _ H1) in Hin. destruct Hin. }
  destruct (is_test_condition n (out_of_boolops up)) eqn:H2.
  2:{ rewrite (visit_call_outside_test n H2) in Hin. destruct Hin. }
  destruct (isinstance (first_arg n x) generator_or_comprehension) eqn:H3.
  - subst n. rewrite (visit_call_comprehension f x rest up H1 H2 H3) in Hin.
    destruct Hin.
  - now repeat split.
Qed.

Lemma instance_has_bool_spec (v : astroid.Inferred) :
  instance_has_bool v = true <-> astroid.getattr v "__bool__" <> None.
Proof.
  unfold instance_has_bool.
  destruct (astroid.getattr v "__bool__"); split; congruence.
Qed.

(** C1.  A [len] call in truthiness position whose argument the handler
    infers to a value [v], where the class descriptor of [v] (own name and
    ancestor names, as [base_classes_of_node] returns them) contains one
    of [str], [tuple], [list], [set] and does not contain [range]: the
    handler reports the call if and only if [v] has no [__bool__], and
    reports nothing when it has one. *)
Theorem pep8_kind_reported_iff_no_bool (f x : expr) (rest : list expr)
  (up : list frame) (v : astroid.Inferred) (mother_classes : list string) :
  let n := call_node f (x :: rest) up in
  is_call_of_name n "len" = true ->
  is_test_condition n (out_of_boolops up) = true ->
  In (first_arg n x) (inferred (visit_call n)) ->
  infer (first_arg n x) = Some v ->
  base_classes_of_node v = ret mother_classes ->
  affected_by_pep8 mother_classes ->
  ~ In "range" mother_classes ->
  (messages (visit_call n) = [(symbol, n)] <-> instance_has_bool v = false)
  /\ (instance_has_bool v = true -> messages (visit_call n) = []).
Proof.
  intros n H1 H2 Hin Hv Hmc Hpep Hrange.
  destruct (visit_call_inferred_argument f x rest up Hin) as [H3 _].
  subst n. rewrite (visit_call_inference f x rest up H1 H2 H3), Hv, Hmc.
  cbn [outcome ret snd]. unfold fires.
  apply inb_not_In in Hrange. apply affected_by_pep8_existsb in Hpep.
  rewrite Hrange, Hpep. simpl orb. simpl andb.
  destruct (instance_has_bool v); simpl; unfold messages; simpl;
    split; try split; intros; try reflexivity; congruence.
Qed.

(** C2.  A [len] call in truthiness position whose argument infers to a
    value whose class descriptor, as [base_classes_of_node] returns it,
    contains [range]: exactly one message, at the call node, whether or
    not the value has a [__bool__]. *)
Theorem range_like_always_reported (f x : expr) (rest : list expr)
  (up : list frame) (v : astroid.Inferred) (mother_classes : list string) :
  let n := call_node f (x :: rest) up in
  is_call_of_name n "len" = true ->
  is_test_condition n (out_of_boolops up) = true ->
  infer (first_arg n x) = Some v ->
  base_classes_of_node v = ret mother_classes ->
  In "range" mother_classes ->
  messages (visit_call n) = [(symbol, n)]
  /\ outcome (visit_call n) = Ok tt.
Proof.
  intros n H1 H2 Hv Hmc Hrange.
  destruct (isinstance (first_arg n x) generator_or_comprehension) eqn:H3;
    subst n.
  - now rewrite (visit_call_comprehension f x rest up H1 H2 H3).
  - rewrite (visit_call_inference f x rest up H1 H2 H3), Hv, Hmc.
    cbn [outcome ret snd].
    unfold fires. apply inb_In in Hrange. rewrite Hrange. now simpl.
Qed.

(** C3.  A [not] node whose operand is a call of the name [len] is
    reported at the [not] node, wherever the node sits (any path to the
    root), and the run consists of that one message: astroid is not asked
    anything, and the handler has no access to [is_test_condition]. *)
Theorem not_len_always_reported (operand : expr) (up : list frame) :
  let n := Node (Ex (UnaryOp "not" operand)) up in
  is_call_of_name (operand_of n operand) "len" = true ->
  visit_unaryop n = ([AddMessage symbol n], Ok tt).
Proof.
  intros n H. subst n. unfold ImplicitBooleanessChecker.visit_unaryop.
  cbn [here]. rewrite H. reflexivity.
Qed.

(** C4.  When astroid raises an inference error on a node the call
    handler asked it to infer, the handler reports nothing and returns
    normally. *)
Theorem inference_error_reports_nothing (n q : node) :
  In q (inferred (visit_call n)) ->
  infer q = None ->
  messages (visit_call n) = [] /\ outcome (visit_call n) = Ok tt.
Proof.
  intros Hin Hq.
  destruct (visit_call_shapes n) as [q' H].
  destruct H as [E | [E | [E | [E | [[E _] | [[E [v [mc [Hv _]]]]
                                            | [E [v [Hv _]]]]]]]]];
    rewrite E in *; simpl in Hin; try contradiction.
  - now split.
  - destruct Hin as [-> | []]. congruence.
  - destruct Hin as [-> | []]. congruence.
Qed.

(** C6.  A call that is not in truthiness position, that is, for which
    [is_test_condition] answers no at the first ancestor that is not a
    [BoolOp], gets no message; astroid is not even asked, so the inferred
    type plays no part. *)
Theorem outside_test_nothing_reported (n : node) :
  is_test_condition n (out_of_boolops (path n)) = false ->
  messages (visit_call n) = []
  /\ inferred (visit_call n) = []
  /\ outcome (visit_call n) = Ok tt.
Proof.
  intros H. now rewrite (visit_call_outside_test n H).
Qed.

(** C7.  A [len] call in truthiness position whose first argument is a
    list, set or dict comprehension or a generator expression: the run
    is exactly one message at the call node, with no inference call
    before or after it, whatever astroid would answer. *)
Theorem comprehension_reported_without_inference (f x : expr)
  (rest : list expr) (up : list frame) :
  let n := call_node f (x :: rest) up in
  is_call_of_name n "len" = true ->
  is_test_condition n (out_of_boolops up) = true ->
  In (class_of (Ex x))
     [nodes.ListComp; nodes.SetComp; nodes.DictComp; nodes.GeneratorExp] ->
  visit_call n = ([AddMessage symbol n], Ok tt).
Proof.
  intros n H1 H2 H3.
  apply (visit_call_comprehension f x rest up H1 H2).
  now apply isinstance_In.
Qed.

(** C9.  Whatever node a handler is run on, it hands the linter either
    nothing or one message, for the node itself, under the symbol
    [use-implicit-booleaness-not-len]; both handlers use that one symbol,
    the only one the checker registers (as C1802). *)
Theorem one_symbol_at_most_once (n : node) :
  (messages (visit_call n) = []
   \/ messages (visit_call n) = [("use-implicit-booleaness-not-len", n)])
  /\ (messages (visit_unaryop n) = []
      \/ messages (visit_unaryop n) = [("use-implicit-booleaness-not-len", n)])
  /\ map (fun entry => (fst entry, msg_symbol (snd entry))) msgs
     = [("C1802", "use-implicit-booleaness-not-len")].
Proof.
  split; [| split; [| reflexivity]].
  - destruct (visit_call_shapes n) as [q H].
    destruct H as [E | [E | [E | [E | [[E _] | [[E _] | [E _]]]]]]];
      rewrite E; (now left) || (now right).
  - unfold ImplicitBooleanessChecker.visit_unaryop.
    destruct n as [s up]. cbn [here].
    destruct s as [b | st | e | c]; try (now left).
    destruct e; try (now left).
    destruct (_ && _); [now right | now left].
Qed.

(** The [AttributeError] of a value without [ancestors] escapes. *)
Lemma visit_call_missing_ancestors (f x : expr) (rest : list expr)
  (up : list frame) (v : astroid.Inferred) :
  let n := call_node f (x :: rest) up in
  is_call_of_name n "len" = true ->
  is_test_condition n (out_of_boolops up) = true ->
  isinstance (first_arg n x) generator_or_comprehension = false ->
  infer (first_arg n x) = Some v ->
  astroid.ancestors v = astroid.NoSuchAttribute ->
  visit_call n = ([Infer (first_arg n x)], Raise AttributeError).
Proof.
  intros n H1 H2 H3 Hv Hanc. subst n.
  rewrite (visit_call_inference f x rest up H1 H2 H3), Hv.
  unfold base_classes_of_node. now rewrite Hanc.
Qed.

(** With an argument the handler returns normally, unless the
    [AttributeError] of a value without [ancestors] escapes. *)
Lemma visit_call_with_argument (f x : expr) (rest : list expr)
  (up : list frame) :
  let n := call_node f (x :: rest) up in
  outcome (visit_call n) = Ok tt
  \/ (visit_call n = ([Infer (first_arg n x)], Raise AttributeError)
      /\ exists v,
          infer (first_arg n x) = Some v
          /\ astroid.ancestors v = astroid.NoSuchAttribute).
Proof.
  intros n.
  destruct (is_call_of_name n "len") eqn:H1.
  2:{ left. now rewrite (visit_call_skips_other_calls _ H1). }
  destruct (is_test_condition n (out_of_boolops up)) eqn:H2.
  2:{ left. now rewrite (visit_call_outside_test n H2). }
  destruct (isinstance (first_arg n x) generator_or_comprehension) eqn:H3.
  { left. subst n. now rewrite (visit_call_comprehension f x rest up H1 H2 H3). }
  destruct (infer (first_arg n x)) as [v |] eqn:Hv.
  2:{ left. subst n.
      now rewrite (visit_call_inference f x rest up H1 H2 H3), Hv. }
  destruct (base_classes_of_node_cases v) as [[mc Hmc] | [_ Hanc]].
  - left. subst n.
    rewrite (visit_call_inference f x rest up H1 H2 H3), Hv, Hmc.
    cbn [outcome ret snd]. now destruct (fires mc v).
  - right. split; [| now exists v].
    now apply (visit_call_missing_ancestors f x rest up v).
Qed.

(** C10.  [node.args[0]] is read without a look at the length of the
    argument list: a [len] call without arguments that gets as far as
    that line makes the handler raise [IndexError], and when every [len]
    call that gets there has an argument the handler never raises
    [IndexError].  The handler is not total for all that: it returns
    normally unless the argument is inferred to a value without the
    attribute [ancestors], and for such a value the [AttributeError]
    raised in [base_classes_of_node], where only [TypeError] is caught,
    escapes after the inference call. *)
Theorem first_argument_access (f : expr) (a : list expr) (up : list frame) :
  let n := call_node f a up in
  ((is_call_of_name n "len" = true ->
    is_test_condition n (out_of_boolops up) = true -> a <> []) ->
   outcome (visit_call n) <> Raise IndexError
   /\ (outcome (visit_call n) = Ok tt
       \/ exists x v,
           hd_error a = Some x
           /\ infer (first_arg n x) = Some v
           /\ astroid.ancestors v = astroid.NoSuchAttribute
           /\ visit_call n = ([Infer (first_arg n x)], Raise AttributeError)))
  /\ (is_call_of_name n "len" = true ->
      is_test_condition n (out_of_boolops up) = true ->
      a = [] ->
      visit_call n = ([], Raise IndexError))
  /\ (forall x rest v,
        a = x :: rest ->
        is_call_of_name n "len" = true ->
        is_test_condition n (out_of_boolops up) = true ->
        isinstance (first_arg n x) generator_or_comprehension = false ->
        infer (first_arg n x) = Some v ->
        astroid.ancestors v = astroid.NoSuchAttribute ->
        visit_call n = ([Infer (first_arg n x)], Raise AttributeError)).
Proof.
  intros n. split; [| split].
  - intros Hpre.
    assert (H : outcome (visit_call n) = Ok tt
                \/ exists x v,
                    hd_error a = Some x
                    /\ infer (first_arg n x) = Some v
                    /\ astroid.ancestors v = astroid.NoSuchAttribute
                    /\ visit_call n
                       = ([Infer (first_arg n x)], Raise AttributeError)).
    { destruct a as [| x rest].
      - left.
        destruct (is_call_of_name n "len") eqn:H1.
        2:{ now rewrite (visit_call_skips_other_calls _ H1). }
        destruct (is_test_condition n (out_of_boolops up)) eqn:H2.
        2:{ now rewrite (visit_call_outside_test n H2). }
        now elim Hpre.
      - destruct (visit_call_with_argument f x rest up)
          as [E | [E [v [Hv Hanc]]]].
        + now left.
        + right. now exists x, v. }
    split; [| exact H].
    destruct H as [E | [x [v [_ [_ [_ E]]]]]]; rewrite E; discriminate.
  - intros H1 H2 ->. now apply visit_call_no_argument.
  - intros x rest v -> H1 H2 H3 Hv Hanc.
    now apply (visit_call_missing_ancestors f x rest up v).
Qed.

End HandlerProperties.

(** ** The handlers with the helpers as the specification describes them *)

Section WithSpecifiedUtils.

Variable infer : node -> option astroid.Inferred.

Local Abbreviation visit_call :=
  (visit_call utils.is_call_of_name utils.is_test_condition infer).
Local Abbreviation visit_unaryop := (visit_unaryop utils.is_call_of_name).

Lemma out_of_boolops_app (bs up : list frame) :
  boolop_frames bs -> out_of_boolops (bs ++ up) = out_of_boolops up.
Proof.
  induction 1 as [| fr bs Hfr _ IH]; [reflexivity |].
  cbn [app out_of_boolops]. unfold isinstance. cbn [here existsb].
  rewrite Hfr. exact IH.
Qed.

Lemma out_of_boolops_site (h : syntax) (s : field) (up : list frame) :
  class_of h <> nodes.BoolOp ->
  out_of_boolops (Frame h s :: up) = Some (Node h up).
Proof.
  intros Hh. cbn [out_of_boolops holder]. unfold isinstance.
  cbn [here existsb]. destruct (nodes.eqb (class_of h) nodes.BoolOp) eqn:E.
  - apply class_eqb_eq in E. contradiction.
  - reflexivity.
Qed.

Lemma slot_below_site (e : syntax) (bs : list frame) (h : syntax) (s : field)
  (up : list frame) :
  utils.slot_below (Node h up) (Node e (bs ++ Frame h s :: up)) = Some s.
Proof.
  unfold utils.slot_below. cbn [path].
  rewrite rev_app_distr. cbn [rev]. rewrite <- app_assoc.
  rewrite nth_error_app2; rewrite length_rev; [| apply Nat.le_refl].
  now rewrite Nat.sub_diag.
Qed.

(** The classification of a call below a chain of boolean operators
    depends on the class of the test site and on the slot of the chain
    alone. *)
Lemma is_test_condition_site (e : syntax) (bs : list frame) (h : syntax)
  (s : field) (up : list frame) :
  boolop_frames bs ->
  class_of h <> nodes.BoolOp ->
  let n := Node e (bs ++ Frame h s :: up) in
  utils.is_test_condition n (out_of_boolops (path n)) =
  existsb (nodes.eqb (class_of h))
          [nodes.If; nodes.While; nodes.IfExp; nodes.Assert]
  && match s with f_test => true | _ => false end.
Proof.
  intros Hbs Hh n. subst n. cbn [path].
  rewrite (out_of_boolops_app _ _ Hbs), (out_of_boolops_site _ _ _ Hh).
  unfold utils.is_test_condition. now rewrite slot_below_site.
Qed.

(** C5.  The same call, once directly below a test site [h1] and once
    below a chain [bs] of nested boolean operators that hangs in the same
    slot of a test site [h2] of the same class: when astroid infers the
    argument alike in both trees, both calls are classified alike, get
    the same messages, each at its own node, and the handler ends
    alike. *)
Theorem boolop_nesting_keeps_verdict (f : expr) (a : list expr)
  (bs : list frame) (h1 h2 : syntax) (s : field) (up1 up2 : list frame) :
  let direct := call_node f a (Frame h1 s :: up1) in
  let nested := call_node f a (bs ++ Frame h2 s :: up2) in
  boolop_frames bs ->
  class_of h1 <> nodes.BoolOp ->
  class_of h2 = class_of h1 ->
  (forall x, hd_error a = Some x ->
             infer (first_arg nested x) = infer (first_arg direct x)) ->
  utils.is_test_condition nested (out_of_boolops (path nested))
  = utils.is_test_condition direct (out_of_boolops (path direct))
  /\ (exists ids,
        messages (visit_call direct) = map (fun i => (i, direct)) ids
        /\ messages (visit_call nested) = map (fun i => (i, nested)) ids)
  /\ outcome (visit_call nested) = outcome (visit_call direct).
Proof.
  intros direct nested Hbs Hh1 Hh2 Hinfer.
  assert (Hh2' : class_of h2 <> nodes.BoolOp) by congruence.
  assert (Hclass :
    utils.is_test_condition nested (out_of_boolops (path nested))
    = utils.is_test_condition direct (out_of_boolops (path direct))).
  { subst direct nested. unfold call_node.
    rewrite (is_test_condition_site _ bs h2 s up2 Hbs Hh2').
    rewrite (is_test_condition_site _ [] h1 s up1 (Forall_nil _) Hh1).
    now rewrite Hh2. }
  split; [exact Hclass |].
  assert (Hname : utils.is_call_of_name nested "len"
                  = utils.is_call_of_name direct "len") by reflexivity.
  destruct (utils.is_call_of_name direct "len") eqn:H1.
  2:{ rewrite (visit_call_skips_other_calls _ _ infer _ H1).
      rewrite (visit_call_skips_other_calls _ _ infer _ Hname).
      split; [now exists [] | reflexivity]. }
  destruct (utils.is_test_condition direct (out_of_boolops (path direct)))
    eqn:H2.
  2:{ rewrite (visit_call_outside_test _ _ infer _ H2).
      rewrite (visit_call_outside_test _ _ infer _ Hclass).
      split; [now exists [] | reflexivity]. }
  destruct a as [| x rest].
  - subst direct nested.
    rewrite (visit_call_no_argument _ _ infer f _ H1 H2).
    rewrite (visit_call_no_argument _ _ infer f _ Hname Hclass).
    split; [now exists [] | reflexivity].
  - specialize (Hinfer x eq_refl).
    destruct (isinstance (first_arg direct x) generator_or_comprehension)
      eqn:H3.
    + assert (H3' : isinstance (first_arg nested x) generator_or_comprehension
                    = true) by exact H3.
      subst direct nested.
      rewrite (visit_call_comprehension _ _ infer f x rest _ H1 H2 H3).
      rewrite (visit_call_comprehension _ _ infer f x rest _ Hname Hclass H3').
      split; [now exists [symbol] | reflexivity].
    + assert (H3' : isinstance (first_arg nested x) generator_or_comprehension
                    = false) by exact H3.
      subst direct nested.
      rewrite (visit_call_inference _ _ infer f x rest _ H1 H2 H3).
      rewrite (visit_call_inference _ _ infer f x rest _ Hname Hclass H3').
      rewrite Hinfer. clear Hinfer.
      destruct (infer _) as [v |];
        [destruct (outcome (base_classes_of_node v)) as [mc | e];
         [destruct (fires mc v) |] |];
        (split; [(now exists [symbol]) || (now exists []) | reflexivity]).
Qed.

(** Below a [not], a call is never in truthiness position: its parent
    is the [not], which is neither a boolean operator nor a test site. *)
Lemma visit_call_below_not (op : string) (e : expr) (up : list frame) :
  let not_node := Node (Ex (UnaryOp op e)) up in
  visit_call (operand_of not_node e) = ([], Ok tt).
Proof.
  intros not_node. apply visit_call_outside_test. reflexivity.
Qed.

(** C8.  [not len(...)] as the test of a condition: the negation handler
    reports the [not] node, the call handler reports nothing for the
    call, and the two runs together hand the linter exactly one
    message. *)
Theorem not_len_in_condition_reported_once (a : list expr) (h : syntax)
  (up : list frame) :
  let len_call := Call (Name "len") a in
  let not_node := Node (Ex (UnaryOp "not" len_call)) (Frame h f_test :: up) in
  In (class_of h) [nodes.If; nodes.While; nodes.IfExp; nodes.Assert] ->
  visit_unaryop not_node = ([AddMessage symbol not_node], Ok tt)
  /\ visit_call (operand_of not_node len_call) = ([], Ok tt)
  /\ messages (_ <- visit_unaryop not_node ;;
               visit_call (operand_of not_node len_call))
     = [(symbol, not_node)].
Proof.
  intros len_call not_node _.
  pose proof (visit_call_below_not "not" len_call (Frame h f_test :: up)) as E.
  cbv zeta in E. fold not_node in E.
  split; [reflexivity | split; [exact E |]].
  rewrite E. reflexivity.
Qed.

End WithSpecifiedUtils.

(** ** The handlers on concrete programs *)

Module on_programs.

Import scenarios.

Local Abbreviation call_handler :=
  (visit_call utils.is_call_of_name utils.is_test_condition infer).
Local Abbreviation not_handler := (visit_unaryop utils.is_call_of_name).

(** [if len(items):], a plain list: reported, and [if len(obj):], a list
    subclass with [__bool__]: not reported. *)
Lemma pep8_kind_reported_iff_no_bool_witness :
  messages (call_handler (test_node if_len_items (len_of (Name "items"))))
  = [(symbol, test_node if_len_items (len_of (Name "items")))]
  /\ messages (call_handler (test_node if_len_obj (len_of (Name "obj")))) = [].
Proof.
  split.
  - apply (pep8_kind_reported_iff_no_bool
             utils.is_call_of_name utils.is_test_condition infer
             (Name "len") (Name "items") []
             [Frame (Stmt (If (len_of (Name "items")) [Pass] [])) f_test;
              Frame (Module if_len_items) (f_body 0)]
             list_value ["list"; "object"]).
    + reflexivity.
    + reflexivity.
    + left. reflexivity.
    + reflexivity.
    + reflexivity.
    + exists "list". simpl. auto.
    + simpl. intros [H | [H | []]]; discriminate H.
    + reflexivity.
  - apply (pep8_kind_reported_iff_no_bool
             utils.is_call_of_name utils.is_test_condition infer
             (Name "len") (Name "obj") []
             [Frame (Stmt (If (len_of (Name "obj")) [Pass] [])) f_test;
              Frame (Module if_len_obj) (f_body 0)]
             list_with_bool ["Flag"; "list"; "object"]).
    + reflexivity.
    + reflexivity.
    + left. reflexivity.
    + reflexivity.
    + reflexivity.
    + exists "list". simpl. auto.
    + simpl. intros [H | [H | [H | []]]]; discriminate H.
    + reflexivity.
Defined.

(** [if len(r):] where [r] is a range, which has a [__bool__]. *)
Lemma range_like_always_reported_witness :
  instance_has_bool range_value = true
  /\ messages (call_handler (test_node if_len_r (len_of (Name "r"))))
     = [(symbol, test_node if_len_r (len_of (Name "r")))]
  /\ outcome (call_handler (test_node if_len_r (len_of (Name "r")))) = Ok tt.
Proof.
  split; [reflexivity |].
  apply (range_like_always_reported
           utils.is_call_of_name utils.is_test_condition infer
           (Name "len") (Name "r") []
           [Frame (Stmt (If (len_of (Name "r")) [Pass] [])) f_test;
            Frame (Module if_len_r) (f_body 0)]
           range_value ["range"; "object"]).
  - reflexivity.
  - reflexivity.
  - reflexivity.
  - reflexivity.
  - simpl. auto.
Defined.

Lemma not_len_always_reported_witness :
  not_handler assigned_not = ([AddMessage symbol assigned_not], Ok tt).
Proof.
  apply (not_len_always_reported utils.is_call_of_name
           (len_of (Name "items"))
           [Frame (Stmt (Assign [Name "x"]
                           (UnaryOp "not" (len_of (Name "items"))))) f_value;
            Frame (Module x_is_not_len_items) (f_body 0)]).
  reflexivity.
Defined.

(** [if len(undefined):] *)
Lemma inference_error_reports_nothing_witness :
  messages (call_handler (test_node if_len_undefined (len_of (Name "undefined"))))
  = []
  /\ outcome (call_handler
                (test_node if_len_undefined (len_of (Name "undefined"))))
     = Ok tt.
Proof.
  apply (inference_error_reports_nothing
           utils.is_call_of_name utils.is_test_condition infer
           (test_node if_len_undefined (len_of (Name "undefined")))
           (first_arg (test_node if_len_undefined (len_of (Name "undefined")))
                      (Name "undefined"))).
  - left. reflexivity.
  - reflexivity.
Defined.

Lemma outside_test_nothing_reported_witness :
  messages (call_handler assigned_len) = []
  /\ inferred (call_handler assigned_len) = []
  /\ outcome (call_handler assigned_len) = Ok tt.
Proof.
  apply (outside_test_nothing_reported
           utils.is_call_of_name utils.is_test_condition infer assigned_len).
  reflexivity.
Defined.

Lemma comprehension_reported_without_inference_witness :
  call_handler (test_node if_len_listcomp (len_of the_listcomp))
  = ([AddMessage symbol (test_node if_len_listcomp (len_of the_listcomp))],
     Ok tt).
Proof.
  apply (comprehension_reported_without_inference
           utils.is_call_of_name utils.is_test_condition infer
           (Name "len") the_listcomp []
           [Frame (Stmt (If (len_of the_listcomp) [Pass] [])) f_test;
            Frame (Module if_len_listcomp) (f_body 0)]).
  - reflexivity.
  - reflexivity.
  - left. reflexivity.
Defined.

(** [if len(items):] against [if a or (b and len(items)):] *)
Lemma boolop_nesting_keeps_verdict_witness :
  utils.is_test_condition nested_len (out_of_boolops (path nested_len))
  = utils.is_test_condition
      (test_node if_len_items (len_of (Name "items")))
      (out_of_boolops (path (test_node if_len_items (len_of (Name "items")))))
  /\ (exists ids,
        messages (call_handler (test_node if_len_items (len_of (Name "items"))))
        = map (fun i => (i, test_node if_len_items (len_of (Name "items")))) ids
        /\ messages (call_handler nested_len)
           = map (fun i => (i, nested_len)) ids)
  /\ outcome (call_handler nested_len)
     = outcome (call_handler (test_node if_len_items (len_of (Name "items")))).
Proof.
  apply (boolop_nesting_keeps_verdict infer
           (Name "len") [Name "items"] nested_frames
           (Stmt (If (len_of (Name "items")) [Pass] []))
           (Stmt (If a_or_b_and_len [Pass] []))
           f_test
           [Frame (Module if_len_items) (f_body 0)]
           [Frame (Module if_a_or_b_and_len_items) (f_body 0)]).
  - repeat constructor.
  - discriminate.
  - reflexivity.
  - intros x Hx. injection Hx as <-. reflexivity.
Defined.

(** [if not len(items):] *)
Lemma not_len_in_condition_reported_once_witness :
  let not_node :=
    test_node if_not_len_items (UnaryOp "not" (len_of (Name "items"))) in
  let len_node := operand_of not_node (len_of (Name "items")) in
  not_handler not_node = ([AddMessage symbol not_node], Ok tt)
  /\ call_handler len_node = ([], Ok tt)
  /\ messages (_ <- not_handler not_node ;; call_handler len_node)
     = [(symbol, not_node)].
Proof.
  apply (not_len_in_condition_reported_once infer [Name "items"]
           (Stmt (If (UnaryOp "not" (len_of (Name "items"))) [Pass] []))
           [Frame (Module if_not_len_items) (f_body 0)]).
  left. reflexivity.
Defined.

(** *** Whole programs, walked from the root

    The scenarios of the specification: the messages of a full walk and
    the number of inference calls. *)

Example walk_if_len_items :
  report if_len_items
  = ([(symbol, test_node if_len_items (len_of (Name "items")))], 1).
Proof. reflexivity. Qed.

Example walk_if_a_or_len_items :
  report if_a_or_len_items
  = ([(symbol,
       Node (Ex (len_of (Name "items")))
            [Frame (Ex (BoolOp "or" [Name "a"; len_of (Name "items")]))
                   (f_values 1);
             Frame (Stmt (If (BoolOp "or" [Name "a"; len_of (Name "items")])
                             [Pass] [])) f_test;
             Frame (Module if_a_or_len_items) (f_body 0)])], 1).
Proof. reflexivity. Qed.

Example walk_if_a_or_b_and_len_items :
  report if_a_or_b_and_len_items = ([(symbol, nested_len)], 1).
Proof. reflexivity. Qed.

Example walk_if_not_len_items :
  report if_not_len_items
  = ([(symbol,
       test_node if_not_len_items (UnaryOp "not" (len_of (Name "items"))))],
     0).
Proof. reflexivity. Qed.

Example walk_x_is_len_items : report x_is_len_items = ([], 0).
Proof. reflexivity. Qed.

Example walk_x_is_not_len_items :
  report x_is_not_len_items = ([(symbol, assigned_not)], 0).
Proof. reflexivity. Qed.

Example walk_f_of_len_items : report f_of_len_items = ([], 0).
Proof. reflexivity. Qed.

Example walk_if_len_listcomp :
  report if_len_listcomp
  = ([(symbol, test_node if_len_listcomp (len_of the_listcomp))], 0).
Proof. reflexivity. Qed.

Example walk_if_len_obj : report if_len_obj = ([], 1).
Proof. reflexivity. Qed.

Example walk_if_len_r :
  report if_len_r = ([(symbol, test_node if_len_r (len_of (Name "r")))], 1).
Proof. reflexivity. Qed.

Example walk_if_len_undefined : report if_len_undefined = ([], 1).
Proof. reflexivity. Qed.

Example walk_if_len_nothing :
  walker.walk infer if_len_nothing = ([], Raise IndexError).
Proof. reflexivity. Qed.

End on_programs.

(** ** Further properties of the handlers *)

Lemma isinstance_boolop (h : syntax) (up : list frame) :
  isinstance (Node h up) [nodes.BoolOp] = true <-> class_of h = nodes.BoolOp.
Proof.
  rewrite isinstance_In. cbn [here In]. split; [intros [H | []] | intros H].
  - now symmetry.
  - left. now symmetry.
Qed.

Lemma out_of_boolops_none (up : list frame) :
  out_of_boolops up = None <-> boolop_frames up.
Proof.
  unfold boolop_frames. induction up as [| fr up IH]; cbn [out_of_boolops].
  - split; [constructor | reflexivity].
  - destruct (isinstance (Node (holder fr) up) [nodes.BoolOp]) eqn:E.
    + apply isinstance_boolop in E. rewrite IH. split.
      * intros H. now constructor.
      * intros H. now inversion H.
    + split; [discriminate |]. intros H. inversion H as [| ? ? Hfr _].
      apply (isinstance_boolop _ up) in Hfr. congruence.
Qed.

(** X1.  The loop that leaves the boolean operators stops at the first
    ancestor that is no [BoolOp]: every ancestor below it is a [BoolOp],
    it is none itself, and it keeps its own ancestors.  It ends with
    [None] exactly when every ancestor up to the root is a [BoolOp]. *)
Theorem out_of_boolops_first_other_ancestor (up : list frame) :
  (forall p,
      out_of_boolops up = Some p <->
      exists bs fr rest,
        up = bs ++ fr :: rest
        /\ boolop_frames bs
        /\ class_of (holder fr) <> nodes.BoolOp
        /\ p = Node (holder fr) rest)
  /\ (out_of_boolops up = None <-> boolop_frames up).
Proof.
  split; [| apply out_of_boolops_none].
  intros p. split.
  - revert p. induction up as [| fr up IH]; cbn [out_of_boolops];
      [discriminate |].
    intros p. destruct (isinstance (Node (holder fr) up) [nodes.BoolOp]) eqn:E.
    + intros H. destruct (IH p H) as [bs [fr' [rest [-> [Hbs [Hfr ->]]]]]].
      exists (fr :: bs), fr', rest. repeat split; try assumption.
      constructor; [now apply (isinstance_boolop _ (bs ++ fr' :: rest)) | exact Hbs].
    + intros H. injection H as <-. exists [], fr, up.
      repeat split; [constructor |].
      intros Hc. apply (isinstance_boolop _ up) in Hc. congruence.
  - intros [bs [fr [rest [-> [Hbs [Hfr ->]]]]]].
    rewrite (out_of_boolops_app _ _ Hbs). destruct fr as [h s].
    now apply out_of_boolops_site.
Qed.

Lemma fires_spec (mother_classes : list string) (v : astroid.Inferred) :
  fires mother_classes v = true <->
  In "range" mother_classes
  \/ (affected_by_pep8 mother_classes /\ instance_has_bool v = false).
Proof.
  unfold fires. rewrite orb_true_iff, andb_true_iff, negb_true_iff.
  now rewrite inb_In, affected_by_pep8_existsb.
Qed.

Lemma without_bool_fires (mother_classes : list string) (v : astroid.Inferred) :
  fires mother_classes v = true ->
  fires mother_classes (without_bool v) = true.
Proof.
  rewrite !fires_spec. intros [H | [H _]]; [now left |].
  right. split; [exact H | reflexivity].
Qed.

Lemma without_bool_base_classes (v : astroid.Inferred) :
  base_classes_of_node (without_bool v) = base_classes_of_node v.
Proof. reflexivity. Qed.

Lemma base_classes_of_node_returns (v : astroid.Inferred)
  (mother_classes : list string) :
  outcome (base_classes_of_node v) = Ok mother_classes ->
  base_classes_of_node v = ret mother_classes.
Proof.
  unfold base_classes_of_node, ret, raise, outcome.
  destruct (astroid.ancestors v); cbn [snd]; congruence.
Qed.

Section FurtherProperties.

Variable is_call_of_name : node -> string -> bool.
Variable is_test_condition : node -> option node -> bool.
Variable infer : node -> option astroid.Inferred.

Local Abbreviation visit_call :=
  (visit_call is_call_of_name is_test_condition infer).
Local Abbreviation visit_unaryop := (visit_unaryop is_call_of_name).
Local Abbreviation skips :=
  (visit_call_skips_other_calls is_call_of_name is_test_condition infer).
Local Abbreviation outside :=
  (visit_call_outside_test is_call_of_name is_test_condition infer).
Local Abbreviation no_argument :=
  (visit_call_no_argument is_call_of_name is_test_condition infer).
Local Abbreviation on_comprehension :=
  (visit_call_comprehension is_call_of_name is_test_condition infer).
Local Abbreviation on_inference :=
  (visit_call_inference is_call_of_name is_test_condition infer).

(** X2.  The decision of the call handler in full: a call node is
    reported exactly when the call is a [len] call, sits in truthiness
    position, has a first argument, and that argument is a comprehension
    or generator expression or is inferred to a value for which
    [base_classes_of_node] returns a class descriptor that contains
    [range], or contains one of [str], [tuple], [list], [set] while the
    value has no [__bool__]. *)
Theorem visit_call_reports_iff (f : expr) (a : list expr) (up : list frame) :
  let n := call_node f a up in
  messages (visit_call n) = [(symbol, n)] <->
  is_call_of_name n "len" = true
  /\ is_test_condition n (out_of_boolops up) = true
  /\ exists x rest,
       a = x :: rest
       /\ (In (class_of (Ex x)) generator_or_comprehension
           \/ exists v mother_classes,
               infer (first_arg n x) = Some v
               /\ base_classes_of_node v = ret mother_classes
               /\ (In "range" mother_classes
                   \/ (affected_by_pep8 mother_classes
                       /\ instance_has_bool v = false))).
Proof.
  intros n.
  destruct (is_call_of_name n "len") eqn:H1.
  2:{ rewrite (skips _ H1). split; [discriminate | intros [H _]; discriminate H]. }
  destruct (is_test_condition n (out_of_boolops up)) eqn:H2.
  2:{ rewrite (outside n H2).
      split; [discriminate | intros [_ [H _]]; discriminate H]. }
  destruct a as [| x rest].
  { subst n. rewrite (no_argument f up H1 H2).
    split; [discriminate | intros [_ [_ [x [rest [H _]]]]]; discriminate H]. }
  destruct (isinstance (first_arg n x) generator_or_comprehension) eqn:H3.
  - subst n. rewrite (on_comprehension f x rest up H1 H2 H3).
    split; [| reflexivity]. intros _. repeat split.
    exists x, rest. split; [reflexivity |]. left.
    now apply (isinstance_In (first_arg (call_node f (x :: rest) up) x)).
  - subst n. rewrite (on_inference f x rest up H1 H2 H3). split.
    + intros H. repeat split. exists x, rest. split; [reflexivity |]. right.
      destruct (infer _) as [v |]; [| discriminate H].
      destruct (outcome (base_classes_of_node v)) as [mc | e] eqn:Hmc;
        [| discriminate H].
      exists v, mc. split; [reflexivity |].
      split; [now apply base_classes_of_node_returns |].
      apply fires_spec.
      destruct (fires mc v); [reflexivity | discriminate H].
    + intros [_ [_ [x' [rest' [E [Hc | [v [mc [Hv [Hmc Hf]]]]]]]]]];
        injection E as <- <-.
      * apply (isinstance_In (first_arg (call_node f (x :: rest) up) x)) in Hc.
        congruence.
      * rewrite Hv, Hmc. cbn [outcome ret snd].
        apply fires_spec in Hf. now rewrite Hf.
Qed.

(** X3.  A value the argument is inferred to for which
    [base_classes_of_node] returns a class descriptor with none of
    [range], [str], [tuple], [list], [set] in it is not reported, with or
    without a [__bool__]: the run is the one inference call and a normal
    return. *)
Theorem unrelated_type_not_reported (f x : expr) (rest : list expr)
  (up : list frame) (v : astroid.Inferred) (mother_classes : list string) :
  let n := call_node f (x :: rest) up in
  In (first_arg n x) (inferred (visit_call n)) ->
  infer (first_arg n x) = Some v ->
  base_classes_of_node v = ret mother_classes ->
  (forall t, In t ["range"; "str"; "tuple"; "list"; "set"] ->
             ~ In t mother_classes) ->
  visit_call n = ([Infer (first_arg n x)], Ok tt).
Proof.
  intros n Hin Hv Hmc Hnone.
  destruct (visit_call_inferred_argument is_call_of_name is_test_condition
              infer f x rest up Hin) as [H3 [H1 H2]].
  subst n. rewrite (on_inference f x rest up H1 H2 H3), Hv, Hmc.
  cbn [outcome ret snd].
  destruct (fires mother_classes v) eqn:Hf; [| reflexivity].
  apply fires_spec in Hf. destruct Hf as [Hr | [[t [Ht Hin'] ] _]].
  - elim (Hnone "range"); [now left | exact Hr].
  - elim (Hnone t); [now right | exact Hin'].
Qed.

(** X4.  The negation handler reports a node exactly when the node is a
    unary operator with the operator [not] whose operand is a [len]
    call; on every node it returns normally and asks astroid nothing. *)
Theorem visit_unaryop_reports_iff (n : node) :
  (messages (visit_unaryop n) = [(symbol, n)] <->
   exists operand,
     here n = Ex (UnaryOp "not" operand)
     /\ is_call_of_name (operand_of n operand) "len" = true)
  /\ inferred (visit_unaryop n) = []
  /\ outcome (visit_unaryop n) = Ok tt.
Proof.
  unfold ImplicitBooleanessChecker.visit_unaryop.
  destruct n as [s up]. cbn [here].
  destruct s as [b | st | e | c];
    try (split; [split; [discriminate | intros [o [E _]]; discriminate E]
                | now split]).
  destruct e as [ | | | | | op operand | | | | | | ];
    try (split; [split; [discriminate | intros [o [E _]]; discriminate E]
                | now split]).
  destruct (String.eqb op "not") eqn:Hop; cbn [andb].
  - apply String.eqb_eq in Hop. subst op.
    destruct (is_call_of_name (operand_of (Node (Ex (UnaryOp "not" operand)) up)
                                          operand) "len") eqn:Hlen.
    + split; [| now split]. split; [| reflexivity].
      intros _. now exists operand.
    + split; [| now split]. split; [discriminate |].
      intros [o [E Ho]]. injection E as <-. congruence.
  - split; [| now split]. split; [discriminate |].
    intros [o [E _]]. injection E as -> _.
    now rewrite String.eqb_refl in Hop.
Qed.

(** X5.  Astroid is asked at most once per call, about the first
    argument and nothing else, only for a [len] call in truthiness
    position whose first argument is no comprehension, and before any
    message is handed to the linter. *)
Theorem inference_only_on_first_argument (f : expr) (a : list expr)
  (up : list frame) (q : node) :
  let n := call_node f a up in
  In q (inferred (visit_call n)) ->
  (exists x rest, a = x :: rest /\ q = first_arg n x)
  /\ is_call_of_name n "len" = true
  /\ is_test_condition n (out_of_boolops up) = true
  /\ isinstance q generator_or_comprehension = false
  /\ (trace (visit_call n) = [Infer q]
      \/ trace (visit_call n) = [Infer q; AddMessage symbol n]).
Proof.
  intros n Hin.
  destruct (is_call_of_name n "len") eqn:H1.
  2:{ rewrite (skips _ H1) in Hin. destruct Hin. }
  destruct (is_test_condition n (out_of_boolops up)) eqn:H2.
  2:{ rewrite (outside n H2) in Hin. destruct Hin. }
  destruct a as [| x rest].
  { subst n. rewrite (no_argument f up H1 H2) in Hin. destruct Hin. }
  destruct (isinstance (first_arg n x) generator_or_comprehension) eqn:H3.
  { subst n. rewrite (on_comprehension f x rest up H1 H2 H3) in Hin.
    destruct Hin. }
  subst n. rewrite (on_inference f x rest up H1 H2 H3) in *.
  assert (Hq : q = first_arg (call_node f (x :: rest) up) x).
  { destruct (infer _) as [v |];
      [destruct (outcome (base_classes_of_node v)) as [mc | e];
       [destruct (fires mc v) |] |];
      destruct Hin as [<- | []]; reflexivity. }
  subst q. repeat split; try assumption.
  - now exists x, rest.
  - destruct (infer _) as [v |];
      [destruct (outcome (base_classes_of_node v)) as [mc | e];
       [destruct (fires mc v) |] |];
      (now left) || (now right).
Qed.

(** X6.  A [__bool__] can only take a report away: a call that is
    reported stays reported when the inferred values lose their
    [__bool__] and keep name and ancestors. *)
Theorem bool_override_only_suppresses (f : expr) (a : list expr)
  (up : list frame) :
  let n := call_node f a up in
  messages (visit_call n) = [(symbol, n)] ->
  messages (ImplicitBooleanessChecker.visit_call
              is_call_of_name is_test_condition
              (fun q => option_map without_bool (infer q)) n)
  = [(symbol, n)].
Proof.
  intros n.
  destruct (is_call_of_name n "len") eqn:H1.
  2:{ rewrite (skips _ H1). discriminate. }
  destruct (is_test_condition n (out_of_boolops up)) eqn:H2.
  2:{ rewrite (outside n H2). discriminate. }
  destruct a as [| x rest].
  { subst n. rewrite (no_argument f up H1 H2). discriminate. }
  destruct (isinstance (first_arg n x) generator_or_comprehension) eqn:H3;
    subst n.
  - intros _.
    now rewrite (visit_call_comprehension is_call_of_name is_test_condition
                   _ f x rest up H1 H2 H3).
  - rewrite (on_inference f x rest up H1 H2 H3).
    rewrite (visit_call_inference is_call_of_name is_test_condition
               _ f x rest up H1 H2 H3).
    destruct (infer _) as [v |]; [| discriminate]. cbn [option_map].
    rewrite without_bool_base_classes.
    destruct (outcome (base_classes_of_node v)) as [mc | e];
      [| discriminate].
    destruct (fires mc v) eqn:Hf; [| discriminate].
    intros _. now rewrite (without_bool_fires mc v Hf).
Qed.

(** X7.  A value without class shape, for which [ancestors()] raises
    [TypeError], is judged by its own name alone: it is reported exactly
    when that name is [range], or is one of [str], [tuple], [list], [set]
    and the value has no [__bool__]. *)
Theorem shapeless_value_judged_by_own_name (f x : expr) (rest : list expr)
  (up : list frame) (v : astroid.Inferred) :
  let n := call_node f (x :: rest) up in
  In (first_arg n x) (inferred (visit_call n)) ->
  infer (first_arg n x) = Some v ->
  astroid.ancestors v = astroid.RaisesTypeError ->
  (messages (visit_call n) = [(symbol, n)] <->
   astroid.name v = "range"
   \/ (In (astroid.name v) ["str"; "tuple"; "list"; "set"]
       /\ instance_has_bool v = false)).
Proof.
  intros n Hin Hv Hanc.
  destruct (visit_call_inferred_argument is_call_of_name is_test_condition
              infer f x rest up Hin) as [H3 [H1 H2]].
  subst n. rewrite (on_inference f x rest up H1 H2 H3), Hv.
  assert (Hbase : base_classes_of_node v = ret [astroid.name v]).
  { unfold base_classes_of_node. now rewrite Hanc. }
  rewrite Hbase. cbn [outcome ret snd].
  assert (Hspec : fires [astroid.name v] v = true <->
                  astroid.name v = "range"
                  \/ (In (astroid.name v) ["str"; "tuple"; "list"; "set"]
                      /\ instance_has_bool v = false)).
  { rewrite fires_spec. unfold affected_by_pep8. cbn [In].
    split.
    - intros [[H | []] | [[t [Ht [H | []]]] Hb]]; [now left |].
      right. subst t. now split.
    - intros [H | [Ht Hb]]; [left; now left |].
      right. split; [| exact Hb]. exists (astroid.name v). split; auto. }
  rewrite <- Hspec. destruct (fires [astroid.name v] v); split; intros H;
    reflexivity || discriminate H.
Qed.

Lemma visit_call_silent_on_other_nodes (n : node) :
  (forall f a, here n <> Ex (Call f a)) -> trace (visit_call n) = [].
Proof.
  intros Hs.
  destruct (is_call_of_name n "len") eqn:H1; [| now rewrite (skips _ H1)].
  destruct (is_test_condition n (out_of_boolops (path n))) eqn:H2;
    [| now rewrite (outside n H2)].
  unfold ImplicitBooleanessChecker.visit_call. rewrite H1, H2.
  cbn [negb]. unfold args_of. destruct n as [s up]. cbn [here] in *.
  destruct s as [b | st | e | c]; try reflexivity.
  destruct e; try reflexivity. now elim (Hs e args).
Qed.

(** X8.  No node gets a message from both handlers: the call handler
    reports call nodes only, the negation handler unary operators only,
    so the two runs on one node hand the linter one message at most. *)
Theorem no_node_reported_twice (n : node) :
  List.length (messages (visit_call n) ++ messages (visit_unaryop n)) <= 1.
Proof.
  destruct n as [s up].
  assert (Hcall : (forall f a, s <> Ex (Call f a)) ->
                  messages (visit_call (Node s up)) = []).
  { intros Hs. unfold messages.
    now rewrite (visit_call_silent_on_other_nodes (Node s up) Hs). }
  assert (Hnot : (forall op x, s <> Ex (UnaryOp op x)) ->
                 messages (visit_unaryop (Node s up)) = []).
  { intros Hs. unfold ImplicitBooleanessChecker.visit_unaryop. cbn [here].
    destruct s as [b | st | e | c]; try reflexivity.
    destruct e; try reflexivity. now elim (Hs op e). }
  assert (Hone : List.length (messages (visit_call (Node s up))) <= 1).
  { destruct (visit_call_shapes is_call_of_name is_test_condition infer
                (Node s up)) as [q H].
    destruct H as [E | [E | [E | [E | [[E _] | [[E _] | [E _]]]]]]];
      rewrite E; cbn; auto. }
  destruct s as [b | st | e | c];
    try (rewrite Hnot by discriminate; now rewrite app_nil_r).
  destruct e as [ | | | | | op x | | | | | | ];
    try (rewrite Hnot by discriminate; now rewrite app_nil_r).
  rewrite Hcall by discriminate. cbn [app].
  unfold ImplicitBooleanessChecker.visit_unaryop. cbn [here].
  destruct (_ && _); cbn; auto.
Qed.

End FurtherProperties.

Section TwoOracles.

Variable is_call_of_name : node -> string -> bool.
Variable is_test_condition : node -> option node -> bool.
Variables infer1 infer2 : node -> option astroid.Inferred.

Lemma fires_by_names (v1 v2 : astroid.Inferred) (mc1 mc2 : list string) :
  (forall t, In t ["range"; "str"; "tuple"; "list"; "set"] ->
             (In t mc1 <-> In t mc2)) ->
  instance_has_bool v1 = instance_has_bool v2 ->
  fires mc1 v1 = true -> fires mc2 v2 = true.
Proof.
  intros Hnames Hbool. rewrite !fires_spec.
  intros [Hr | [[t [Ht Hin]] Hb]].
  - left. apply (Hnames "range"); [now left | exact Hr].
  - right. split; [| congruence]. exists t. split; [exact Ht |].
    apply (Hnames t); [now right | exact Hin].
Qed.

(** X9.  Of an inferred value with a class descriptor the call handler
    sees only which of the names [range], [str], [tuple], [list], [set]
    the descriptor that [base_classes_of_node] returns contains and
    whether the value has a [__bool__]: two answers of astroid that agree
    on these lead to the same messages. *)
Theorem verdict_by_names_and_bool (f x : expr) (rest : list expr)
  (up : list frame) (v1 v2 : astroid.Inferred) (mc1 mc2 : list string) :
  let n := call_node f (x :: rest) up in
  infer1 (first_arg n x) = Some v1 ->
  infer2 (first_arg n x) = Some v2 ->
  base_classes_of_node v1 = ret mc1 ->
  base_classes_of_node v2 = ret mc2 ->
  (forall t, In t ["range"; "str"; "tuple"; "list"; "set"] ->
             (In t mc1 <-> In t mc2)) ->
  instance_has_bool v1 = instance_has_bool v2 ->
  messages (visit_call is_call_of_name is_test_condition infer1 n)
  = messages (visit_call is_call_of_name is_test_condition infer2 n).
Proof.
  intros n Hv1 Hv2 Hmc1 Hmc2 Hnames Hbool.
  destruct (is_call_of_name n "len") eqn:H1.
  2:{ now rewrite !(visit_call_skips_other_calls _ _ _ _ H1). }
  destruct (is_test_condition n (out_of_boolops up)) eqn:H2.
  2:{ now rewrite !(visit_call_outside_test _ _ _ n H2). }
  destruct (isinstance (first_arg n x) generator_or_comprehension) eqn:H3;
    subst n.
  - now rewrite !(visit_call_comprehension _ _ _ f x rest up H1 H2 H3).
  - rewrite !(visit_call_inference _ _ _ f x rest up H1 H2 H3), Hv1, Hv2.
    rewrite Hmc1, Hmc2. cbn [outcome ret snd].
    assert (E : fires mc1 v1 = fires mc2 v2).
    { destruct (fires mc1 v1) eqn:F1, (fires mc2 v2) eqn:F2; try reflexivity.
      - now rewrite (fires_by_names v1 v2 mc1 mc2 Hnames Hbool F1) in F2.
      - assert (F : fires mc1 v1 = true).
        { apply (fires_by_names v2 v1 mc2 mc1); [| now symmetry | exact F2].
          intros t Ht. symmetry. now apply Hnames. }
        congruence. }
    rewrite E. now destruct (fires mc2 v2).
Qed.

End TwoOracles.

Section Exceptions.

Variable is_call_of_name : node -> string -> bool.
Variable is_test_condition : node -> option node -> bool.
Variable infer : node -> option astroid.Inferred.

Local Abbreviation visit_call :=
  (visit_call is_call_of_name is_test_condition infer).

(** X10.  On a call node the handler raises [IndexError] exactly when
    the call is a [len] call in truthiness position without any
    argument; it has then made no call to a collaborator. *)
Theorem index_error_iff_no_argument (f : expr) (a : list expr)
  (up : list frame) :
  let n := call_node f a up in
  (outcome (visit_call n) = Raise IndexError <->
   is_call_of_name n "len" = true
   /\ is_test_condition n (out_of_boolops up) = true
   /\ a = [])
  /\ (outcome (visit_call n) = Raise IndexError -> trace (visit_call n) = []).
Proof.
  intros n.
  destruct (is_call_of_name n "len") eqn:H1.
  2:{ rewrite (visit_call_skips_other_calls _ _ infer _ H1).
      split; [split; [discriminate | intros [H _]; discriminate H]
             | reflexivity]. }
  destruct (is_test_condition n (out_of_boolops up)) eqn:H2.
  2:{ rewrite (visit_call_outside_test _ _ infer n H2).
      split; [split; [discriminate | intros [_ [H _]]; discriminate H]
             | reflexivity]. }
  destruct a as [| x rest].
  - subst n. rewrite (visit_call_no_argument _ _ infer f up H1 H2).
    split; [split; [now repeat split | reflexivity] | reflexivity].
  - assert (Hno : outcome (visit_call n) <> Raise IndexError).
    { destruct (visit_call_with_argument is_call_of_name is_test_condition
                  infer f x rest up) as [E | [E _]];
        subst n; rewrite E; discriminate. }
    split; [split |]; [intros H; contradiction
                      | intros [_ [_ H]]; discriminate H
                      | intros H; contradiction].
Qed.

(** X11.  When the argument is inferred to a value without an attribute
    [ancestors], such as a function, the handler reports nothing and does
    not return normally: after the inference call the [AttributeError]
    raised in [base_classes_of_node] escapes. *)
Theorem missing_ancestors_escapes (f x : expr) (rest : list expr)
  (up : list frame) (v : astroid.Inferred) :
  let n := call_node f (x :: rest) up in
  In (first_arg n x) (inferred (visit_call n)) ->
  infer (first_arg n x) = Some v ->
  astroid.ancestors v = astroid.NoSuchAttribute ->
  visit_call n = ([Infer (first_arg n x)], Raise AttributeError).
Proof.
  intros n Hin Hv Hanc.
  destruct (visit_call_inferred_argument is_call_of_name is_test_condition
              infer f x rest up Hin) as [H3 [H1 H2]].
  now apply (visit_call_missing_ancestors is_call_of_name is_test_condition
               infer f x rest up v).
Qed.

End Exceptions.

(** ** The further properties on concrete programs *)

Module on_more_programs.

Import scenarios more_scenarios.

Local Abbreviation call_handler :=
  (visit_call utils.is_call_of_name utils.is_test_condition).

(** [if len(count):], an [int] *)
Lemma unrelated_type_not_reported_witness :
  call_handler infer (test_node if_len_count (len_of (Name "count")))
  = ([Infer (first_arg (test_node if_len_count (len_of (Name "count")))
                       (Name "count"))],
     Ok tt).
Proof.
  apply (unrelated_type_not_reported
           utils.is_call_of_name utils.is_test_condition infer
           (Name "len") (Name "count") []
           [Frame (Stmt (If (len_of (Name "count")) [Pass] [])) f_test;
            Frame (Module if_len_count) (f_body 0)]
           int_value ["int"; "object"]).
  - left. reflexivity.
  - reflexivity.
  - reflexivity.
  - intros t Ht Hin. cbn in Ht, Hin.
    destruct Hin as [<- | [<- | []]];
      repeat (destruct Ht as [Ht | Ht]; [discriminate Ht |]); exact Ht.
Defined.

(** [if len(items):], the inference of [items] *)
Lemma inference_only_on_first_argument_witness :
  let n := test_node if_len_items (len_of (Name "items")) in
  let q := first_arg n (Name "items") in
  (exists x rest, [Name "items"] = x :: rest /\ q = first_arg n x)
  /\ utils.is_call_of_name n "len" = true
  /\ utils.is_test_condition n (out_of_boolops (path n)) = true
  /\ isinstance q generator_or_comprehension = false
  /\ (trace (call_handler infer n) = [Infer q]
      \/ trace (call_handler infer n) = [Infer q; AddMessage symbol n]).
Proof.
  apply (inference_only_on_first_argument
           utils.is_call_of_name utils.is_test_condition infer
           (Name "len") [Name "items"]
           [Frame (Stmt (If (len_of (Name "items")) [Pass] [])) f_test;
            Frame (Module if_len_items) (f_body 0)]).
  left. reflexivity.
Defined.

(** [if len(r):]: the range is reported with its [__bool__], and
    without it. *)
Lemma bool_override_only_suppresses_witness :
  messages (call_handler (fun q => option_map without_bool (infer q))
              (test_node if_len_r (len_of (Name "r"))))
  = [(symbol, test_node if_len_r (len_of (Name "r")))].
Proof.
  apply (bool_override_only_suppresses
           utils.is_call_of_name utils.is_test_condition infer
           (Name "len") [Name "r"]
           [Frame (Stmt (If (len_of (Name "r")) [Pass] [])) f_test;
            Frame (Module if_len_r) (f_body 0)]).
  reflexivity.
Defined.

(** [if len(items):] where [items] is taken for the shapeless value
    called [list] *)
Lemma shapeless_value_judged_by_own_name_witness :
  messages (call_handler infer_shapeless
              (test_node if_len_items (len_of (Name "items"))))
  = [(symbol, test_node if_len_items (len_of (Name "items")))].
Proof.
  apply (shapeless_value_judged_by_own_name
           utils.is_call_of_name utils.is_test_condition infer_shapeless
           (Name "len") (Name "items") []
           [Frame (Stmt (If (len_of (Name "items")) [Pass] [])) f_test;
            Frame (Module if_len_items) (f_body 0)]
           shapeless_list).
  - left. reflexivity.
  - reflexivity.
  - reflexivity.
  - right. split; [cbn; auto | reflexivity].
Defined.

(** [if len(items):] with [items] a plain list, against [items] taken
    for the shapeless value called [list] *)
Lemma verdict_by_names_and_bool_witness :
  messages (call_handler infer (test_node if_len_items (len_of (Name "items"))))
  = messages (call_handler infer_shapeless
                (test_node if_len_items (len_of (Name "items")))).
Proof.
  apply (verdict_by_names_and_bool
           utils.is_call_of_name utils.is_test_condition
           infer infer_shapeless
           (Name "len") (Name "items") []
           [Frame (Stmt (If (len_of (Name "items")) [Pass] [])) f_test;
            Frame (Module if_len_items) (f_body 0)]
           list_value shapeless_list ["list"; "object"] ["list"]).
  - reflexivity.
  - reflexivity.
  - reflexivity.
  - reflexivity.
  - intros t Ht. cbn in Ht. cbn.
    repeat (destruct Ht as [<- | Ht]; [split; intros H; intuition discriminate |]).
    destruct Ht.
  - reflexivity.
Defined.

(** [if len(len):]: the call has an argument, and the handler raises
    [AttributeError]. *)
Lemma first_argument_access_witness :
  call_handler infer_with_builtins
    (test_node if_len_len (len_of (Name "len")))
  = ([Infer (first_arg (test_node if_len_len (len_of (Name "len")))
                       (Name "len"))],
     Raise AttributeError).
Proof.
  apply (proj2 (proj2 (first_argument_access
                         utils.is_call_of_name utils.is_test_condition
                         infer_with_builtins
                         (Name "len") [Name "len"]
                         [Frame (Stmt (If (len_of (Name "len")) [Pass] []))
                                f_test;
                          Frame (Module if_len_len) (f_body 0)]))
               (Name "len") [] len_function);
    reflexivity.
Defined.

(** [assert len(len)]: the function [len] as the argument, in the test
    of an [assert] *)
Lemma missing_ancestors_escapes_witness :
  call_handler infer_with_builtins
    (Node (Ex (len_of (Name "len")))
          [Frame (Stmt (Assert (len_of (Name "len")) None)) f_test;
           Frame (Module [Assert (len_of (Name "len")) None]) (f_body 0)])
  = ([Infer (Node (Ex (Name "len"))
                  [Frame (Ex (len_of (Name "len"))) (f_args 0);
                   Frame (Stmt (Assert (len_of (Name "len")) None)) f_test;
                   Frame (Module [Assert (len_of (Name "len")) None])
                         (f_body 0)])],
     Raise AttributeError).
Proof.
  apply (missing_ancestors_escapes
           utils.is_call_of_name utils.is_test_condition
           infer_with_builtins
           (Name "len") (Name "len") []
           [Frame (Stmt (Assert (len_of (Name "len")) None)) f_test;
            Frame (Module [Assert (len_of (Name "len")) None]) (f_body 0)]
           len_function).
  - left. reflexivity.
  - reflexivity.
  - reflexivity.
Defined.

(** A full walk of [if len(len): pass] *)
Example walk_if_len_len :
  walker.walk infer_with_builtins if_len_len
  = ([Infer (first_arg (test_node if_len_len (len_of (Name "len")))
                       (Name "len"))],
     Raise AttributeError).
Proof. reflexivity. Qed.

End on_more_programs.
